(* Verification of the model-failover core of Brainhealer_bot (src/app.py):
   the cooldown tracker (_mark_model_failed, _is_model_available), the
   dispatcher (_openrouter_chat_sync), the model catalog
   (fetch_free_models), the crisis detector (is_crisis), the stress rater
   (get_stress_level), history trimming (_trim_history) and the Telegram
   message handler (handle_message).

   Strings are Rocq strings; each character stands for one code point in
   0..255 (Latin-1), which is where Python's str.lower, str.isspace and
   str.isdigit are written out below. Fixed reply texts with emoji are kept
   as their UTF-8 bytes; they are only ever compared for equality.
   Time (time.time()) is an integer timestamp. *)

From Stdlib Require Import String Ascii ZArith Bool List Lia.
From stdpp Require Import base gmap strings list.

Import ListNotations.
Open Scope string_scope.
Open Scope Z_scope.

(* ------------------------------------------------------------------ *)
(** * Python string helpers *)

(** Python [str.isspace] on code points 0..255. *)
Definition py_isspace (c : ascii) : bool :=
  let n := Z.of_nat (nat_of_ascii c) in
  ((9 <=? n) && (n <=? 13)) || ((28 <=? n) && (n <=? 32))
  || (n =? 133) || (n =? 160).

(** Python [str.lower] on one code point 0..255: A-Z and the Latin-1
    capitals U+00C0..U+00DE except U+00D7 move down by 32. *)
Definition py_lower_char (c : ascii) : ascii :=
  let n := nat_of_ascii c in
  if ((65 <=? n) && (n <=? 90))%nat
     || (((192 <=? n) && (n <=? 222)) && negb (n =? 215))%nat
  then ascii_of_nat (n + 32) else c.

Fixpoint py_lower (s : string) : string :=
  match s with
  | EmptyString => EmptyString
  | String c s' => String (py_lower_char c) (py_lower s')
  end.

(** [kw in s]: substring test. *)
Fixpoint py_contains (kw s : string) : bool :=
  String.prefix kw s ||
  match s with
  | EmptyString => false
  | String _ s' => py_contains kw s'
  end.

Fixpoint py_lstrip (s : string) : string :=
  match s with
  | EmptyString => EmptyString
  | String c s' => if py_isspace c then py_lstrip s' else s
  end.

Fixpoint py_rstrip_aux (s : string) : string :=
  (* strips trailing whitespace *)
  match s with
  | EmptyString => EmptyString
  | String c s' =>
      let r := py_rstrip_aux s' in
      match r with
      | EmptyString => if py_isspace c then EmptyString else String c EmptyString
      | _ => String c r
      end
  end.

(** [str.strip()] *)
Definition py_strip (s : string) : string := py_rstrip_aux (py_lstrip s).

(** Truthiness of a string: non-empty. *)
Definition py_truthy (s : string) : bool :=
  match s with EmptyString => false | _ => true end.

(** [s.strip()] is empty. *)
Definition is_blank (s : string) : bool := negb (py_truthy (py_strip s)).

(* ------------------------------------------------------------------ *)
(** * Per-model failure tracker *)

Record model_state := { fails : Z; skip_until : Z }.

Definition fresh_state : model_state := {| fails := 0; skip_until := 0 |}.

Section Failover.
(** MODEL_FAILURE_THRESHOLD and MODEL_COOLDOWN_SECONDS *)
Variable MODEL_FAILURE_THRESHOLD MODEL_COOLDOWN_SECONDS : Z.

(** _mark_model_failed(model) at time [now] *)
Definition mark_model_failed (now : Z) (model : string)
      (st : gmap string model_state) : gmap string model_state :=
    let s := default fresh_state (st !! model) in
    let f := fails s + 1 in
    if MODEL_FAILURE_THRESHOLD <=? f
    then <[model := {| fails := f; skip_until := now + MODEL_COOLDOWN_SECONDS |}]> st
    else <[model := {| fails := f; skip_until := skip_until s |}]> st.
(** _is_model_available(model) at time [now]: the answer and the new state. *)
Definition is_model_available (now : Z) (model : string)
    (st : gmap string model_state) : bool * gmap string model_state :=
  match st !! model with
  | None => (true, st)
  | Some s =>
      if skip_until s <=? now
      then (true, <[model := fresh_state]> st)
      else (false, st)
  end.

(** The counter of a model as the code would read it (absent = 0). *)
Definition fails_of (st : gmap string model_state) (m : string) : Z :=
  fails (default fresh_state (st !! m)).

(* ------------------------------------------------------------------ *)
(** * The dispatcher: _openrouter_chat_sync *)

(** What one [requests.post] to a model yields: a response with its
    status code and the text at choices[0].message.content (the empty
    string when absent), or an exception (connection error, timeout, or
    [resp.json()] failing on a 200 response). *)
Inductive post_outcome :=
  | Http (status_code : Z) (content : string)
  | ConnError.

(** How a call of _openrouter_chat_sync ends: the reply, or the
    RuntimeError it raises (missing key, auth error, all models failed). *)
Inductive chat_result :=
  | ChatOk (reply : string)
  | ErrMissingKey
  | ErrAuth
  | ErrExhausted (tried : Z).

Definition skip_codes : list Z := [404; 410; 429; 500; 502; 503; 504].
Definition auth_codes : list Z := [401; 403].

Definition z_in (z : Z) (l : list Z) : bool := existsb (Z.eqb z) l.

(** The [for model in MODEL_PRIORITY] loop. All calls of time.time()
      inside one run read [now]; [resp m] is what model [m] answers. *)
Fixpoint chat_loop (now : Z) (resp : string -> post_outcome)
      (models : list string) (tried : Z) (st : gmap string model_state)
      : chat_result * gmap string model_state :=
    match models with
    | [] => (ErrExhausted tried, st)
    | model :: rest =>
        let '(av, st1) := is_model_available now model st in
        if negb av then chat_loop now resp rest tried st1
        else
          let tried := tried + 1 in
          match resp model with
          | ConnError =>
              chat_loop now resp rest tried (mark_model_failed now model st1)
          | Http code content =>
              if (code =? 200) && py_truthy (py_strip content) then
                (ChatOk content,
                 match st1 !! model with
                 | Some _ => <[model := fresh_state]> st1
                 | None => st1
                 end)
              else if z_in code skip_codes then
                chat_loop now resp rest tried (mark_model_failed now model st1)
              else if z_in code auth_codes then (ErrAuth, st1)
              else chat_loop now resp rest tried (mark_model_failed now model st1)
          end
    end.

(** _openrouter_chat_sync; [key_set] is the truthiness of
      OPENROUTER_API_KEY, [models] is MODEL_PRIORITY. *)
Definition openrouter_chat_sync (key_set : bool) (now : Z)
      (resp : string -> post_outcome) (models : list string)
      (st : gmap string model_state) : chat_result * gmap string model_state :=
    if negb key_set then (ErrMissingKey, st)
    else chat_loop now resp models 0 st.

End Failover.

(* ------------------------------------------------------------------ *)
(** * The model catalog: fetch_free_models *)

(** One element of the "data" array of GET /api/v1/models, with the
    fields the code reads: m["id"], pricing["prompt"] and
    pricing["completion"] (None when the key is missing). *)
Record listing_entry := {
  e_id : option string;
  e_prompt : option string;
  e_completion : option string }.

(** The outcome of [requests.get(OPENROUTER_MODELS_URL, ...)]: an
    exception, or a status code with the parsed "data" array ([None] when
    [resp.json()] or the dict accesses on it raise; a missing "data" key
    is [Some []]). *)
Inductive listing_response :=
  | ListTransportError
  | ListStatus (status_code : Z) (data : option (list listing_entry)).

Definition default_model : string := "openrouter/free".

Definition fallback_models : list string :=
  ["openrouter/free"; "liquid/lfm-2.5-1.2b-instruct:free";
   "google/gemma-3-27b-it:free"].

Definition is_free (m : listing_entry) : bool :=
  match e_prompt m, e_completion m with
  | Some p, Some c => String.eqb p "0" && String.eqb c "0"
  | _, _ => false
  end.

(** The [for m in data] loop; [None] when m["id"] raises KeyError. *)
Fixpoint collect_free (data : list listing_entry) : option (list string) :=
  match data with
  | [] => Some []
  | m :: rest =>
      if is_free m then
        match e_id m with
        | None => None
        | Some i =>
            match collect_free rest with
            | Some l => Some (i :: l)
            | None => None
            end
        end
      else collect_free rest
  end.

(** Python [list.remove(x)]: drops the first occurrence only. *)
Fixpoint py_remove (x : string) (l : list string) : list string :=
  match l with
  | [] => []
  | y :: l' => if String.eqb x y then l' else y :: py_remove x l'
  end.

Definition py_in (x : string) (l : list string) : bool := existsb (String.eqb x) l.

Definition fetch_free_models (r : listing_response) : list string :=
  match r with
  | ListStatus code (Some data) =>
      if code =? 200 then
        match collect_free data with
        | Some free_models =>
            if negb (py_in default_model free_models)
            then default_model :: free_models
            else default_model :: py_remove default_model free_models
        | None => fallback_models
        end
      else fallback_models
  | _ => fallback_models
  end.

(* ------------------------------------------------------------------ *)
(** * Crisis detection: is_crisis *)

Definition CRISIS_KEYWORDS : list string :=
  ["wanna die"; "want to die"; "kill myself"; "end my life";
   "suicide"; "suicidal"; "self harm"; "self-harm"; "no reason to live";
   "can't go on"; "cant go on"; "better off dead"; "end it all";
   "don't want to live"; "dont want to live"; "harm myself"].

Definition is_crisis (text : string) : bool :=
  let text_lower := py_lower text in
  existsb (fun kw => py_contains kw text_lower) CRISIS_KEYWORDS.

(* ------------------------------------------------------------------ *)
(** * Stress rater: get_stress_level *)

(** Python [str.isdigit] on code points 0..255: '0'..'9' and the
    superscripts U+00B2, U+00B3, U+00B9. *)
Definition py_isdigit (c : ascii) : bool :=
  let n := Z.of_nat (nat_of_ascii c) in
  ((48 <=? n) && (n <=? 57)) || (n =? 178) || (n =? 179) || (n =? 185).

(** [int(c)] for one character: [None] when it raises ValueError
    (the superscript digits). *)
Definition py_int_char (c : ascii) : option Z :=
  let n := Z.of_nat (nat_of_ascii c) in
  if (48 <=? n) && (n <=? 57) then Some (n - 48) else None.

(** The body after [openrouter_chat] returned (or raised): [r] is the
    dispatch outcome; every exception path ends in [return 1]. *)
Definition get_stress_level (r : chat_result) : Z :=
  match r with
  | ChatOk txt =>
      let raw := py_strip txt in
      match raw with
      | String c _ =>
          if py_isdigit c then
            match py_int_char c with
            | Some level => if (1 <=? level) && (level <=? 5) then level else 1
            | None => 1
            end
          else 1
      | EmptyString => 1
      end
  | _ => 1
  end.

(* ------------------------------------------------------------------ *)
(** * Session history: _trim_history *)

Inductive role := RoleSystem | RoleUser | RoleAssistant.

Record chat_message := { msg_role : role; msg_content : string }.

Definition HISTORY_PAIRS_TO_KEEP : Z := 12.

(** Python [l[i:]] for an integer [i] (negative counts from the end). *)
Definition py_slice_from {A} (i : Z) (l : list A) : list A :=
  let n := Z.of_nat (length l) in
  let start := if i <? 0 then Z.max 0 (n + i) else Z.min i n in
  drop (Z.to_nat start) l.

Definition trim_history (history : list chat_message) : list chat_message :=
  let max_msgs := HISTORY_PAIRS_TO_KEEP * 2 in
  if Z.of_nat (length history) <=? max_msgs then history
  else py_slice_from (- max_msgs) history.

(* ------------------------------------------------------------------ *)
(** * The message handler: handle_message *)

(** What the handler does towards the outside: the typing action, a call
    of openrouter_chat (its messages and max_tokens; the temperature, a
    float, is left out), and a delivered reply_text with or without the
    breathing-exercise button. *)
Inductive event :=
  | EvTyping
  | EvDispatch (messages : list chat_message) (max_tokens : Z)
  | EvReply (text : string) (button : bool).

(** The handler's state: chat_sessions, the outcomes of the successive
    Telegram sends (true = delivered, false = the call raises; sends
    beyond the list are delivered), and the log of effects. *)
Record hstate := {
  chat_sessions : gmap Z (list chat_message);
  sends : list bool;
  log : list event }.

Inductive exc (A : Type) := Ret (a : A) | Raise.
Arguments Ret {A} a.
Arguments Raise {A}.

(** Exception-and-state monad for the async handler. *)
Definition H (A : Type) : Type := hstate -> exc A * hstate.

Definition h_ret {A} (a : A) : H A := fun s => (Ret a, s).
Definition h_raise {A} : H A := fun s => (Raise, s).
Definition h_bind {A B} (m : H A) (k : A -> H B) : H B :=
  fun s => match m s with
           | (Ret a, s') => k a s'
           | (Raise, s') => (Raise, s')
           end.

Notation "x <-- m ;; k" := (h_bind m (fun x => k))
  (at level 100, m at level 99, right associativity).
Notation "m ;;; k" := (h_bind m (fun _ => k))
  (at level 100, right associativity).

Definition set_sessions (f : gmap Z (list chat_message) -> gmap Z (list chat_message))
  : H unit :=
  fun s => (Ret tt, {| chat_sessions := f (chat_sessions s); sends := sends s;
                       log := log s |}).

Definition get_history (uid : Z) : H (list chat_message) :=
  fun s => (Ret (default [] (chat_sessions s !! uid)), s).

Definition emit (ev : event) : H unit :=
  fun s => (Ret tt, {| chat_sessions := chat_sessions s; sends := sends s;
                       log := log s ++ [ev] |}).

(** An awaited Telegram call: delivered, or raising. *)
Definition deliver (ev : event) : H unit :=
  fun s => match sends s with
           | [] => (Ret tt, {| chat_sessions := chat_sessions s; sends := [];
                               log := log s ++ [ev] |})
           | ok :: rest =>
               if ok then (Ret tt, {| chat_sessions := chat_sessions s; sends := rest;
                                      log := log s ++ [ev] |})
               else (Raise, {| chat_sessions := chat_sessions s; sends := rest;
                               log := log s |})
           end.

(** [try: body except Exception: handler] *)
Definition try_except (body handler : H unit) : H unit :=
  fun s => match body s with
           | (Raise, s') => handler s'
           | r => r
           end.

Definition dq : string := String (ascii_of_nat 34) EmptyString.
Definition nl : string := String (ascii_of_nat 10) EmptyString.

Definition SYSTEM_PROMPT : string :=
  "You are a compassionate mental health companion. " ++
  "Respond with empathy and warmth. Never diagnose. " ++
  "Recommend professional help for serious issues. " ++
  "Keep replies under 150 words.".

(** The two messages get_stress_level sends. *)
Definition stress_messages (user_text : string) : list chat_message :=
  [ {| msg_role := RoleSystem; msg_content := "You output only a single digit 1-5." |};
    {| msg_role := RoleUser;
       msg_content := "You are a mental health triage assistant." ++ nl ++
         "Rate emotional distress 1-5. 5=crisis/self-harm. Reply ONLY with 1 digit." ++ nl ++
         "Message: " ++ dq ++ user_text ++ dq |} ].

Definition crisis_reply : string :=
  "💚 I hear you, and I'm really glad you reached out." ++ nl ++ nl ++
  "What you're feeling right now is serious, and you deserve real support. " ++
  "Please reach out to a crisis helpline immediately:" ++ nl ++ nl ++
  "🇮🇳 *iCall (India):* 9152987821" ++ nl ++
  "🌍 *Crisis Text Line:* Text HOME to 741741" ++ nl ++ nl ++
  "You are not alone. 💚".

Definition missing_key_reply : string := "❌ OPENROUTER_API_KEY missing from .env".
Definition default_reply : string := "I'm here for you. Could you share more?".
Definition error_reply : string :=
  "Sorry, something went wrong. Try /clear and send your message again.".

(** handle_message for user [uid] and text [user_text]; [rate_res] and
    [reply_res] are the outcomes of the two openrouter_chat calls run by
    asyncio.gather (the rating call inside get_stress_level, and the
    reply call). Appending to the list object stored in chat_sessions and
    then storing the trimmed list is modelled by storing the trimmed list. *)
Definition handle_message (key_set : bool) (uid : Z) (user_text : string)
    (rate_res reply_res : chat_result) : H unit :=
  if negb key_set then deliver (EvReply missing_key_reply false)
  else
    try_except
      (set_sessions (fun ss => match ss !! uid with
                               | None => <[uid := []]> ss
                               | Some _ => ss
                               end) ;;;
       deliver EvTyping ;;;
       if is_crisis user_text then deliver (EvReply crisis_reply true)
       else
         h0 <-- get_history uid ;;
         let history := trim_history (h0 ++ [{| msg_role := RoleUser; msg_content := user_text |}]) in
         set_sessions (insert uid history) ;;;
         let messages := {| msg_role := RoleSystem; msg_content := SYSTEM_PROMPT |} :: history in
         emit (EvDispatch (stress_messages user_text) 3) ;;;
         emit (EvDispatch messages 220) ;;;
         match reply_res with
         | ChatOk r =>
             let stress_level := get_stress_level rate_res in
             let reply := if py_truthy (py_strip r) then py_strip r else default_reply in
             set_sessions (insert uid (trim_history
               (history ++ [{| msg_role := RoleAssistant; msg_content := reply |}]))) ;;;
             deliver (EvReply reply (3 <=? stress_level))
         | _ => h_raise
         end)
      (set_sessions (delete uid) ;;;
       deliver (EvReply error_reply false)).

(** Running the handler from a given store and send outcomes. *)
Definition run_handler (key_set : bool) (uid : Z) (user_text : string)
    (rate_res reply_res : chat_result) (ss : gmap Z (list chat_message))
    (snd : list bool) : exc unit * hstate :=
  handle_message key_set uid user_text rate_res reply_res
    {| chat_sessions := ss; sends := snd; log := [] |}.

(** The /clear command handler [clear]: drop the user's session, then
    send the confirmation. *)
Definition clear_reply : string := "✅ Conversation cleared! Fresh start 💚".

Definition clear (uid : Z) : H unit :=
  set_sessions (delete uid) ;;;
  deliver (EvReply clear_reply false).

(** The value of OPENROUTER_API_KEY formatted by an f-string: the text,
    or "None" when the variable is unset. *)
Definition py_format_opt (o : option string) : string :=
  match o with Some k => k | None => "None" end.

(** _openrouter_headers(), for OPENROUTER_API_KEY, OPENROUTER_SITE_URL and
    OPENROUTER_APP_NAME. *)
Definition openrouter_headers (api_key : option string) (site_url app_name : string)
  : gmap string string :=
  let headers : gmap string string :=
    <["Content-Type" := "application/json"]>
      (<["Authorization" := "Bearer " ++ py_format_opt api_key]> ∅) in
  let headers := if py_truthy site_url then <["HTTP-Referer" := site_url]> headers
                 else headers in
  if py_truthy app_name then <["X-Title" := app_name]> headers else headers.

(* ------------------------------------------------------------------ *)
(** * Derived notions used in the statements *)

(** The answer of _is_model_available, and the state it leaves. *)
Definition available (now : Z) (st : gmap string model_state) (m : string) : bool :=
  fst (is_model_available now m st).

Definition avail_state (now : Z) (m : string) (st : gmap string model_state)
  : gmap string model_state := snd (is_model_available now m st).

(** An outcome after which the loop records a failure and moves on:
    anything but a 200 with non-blank content or a 401/403. *)
Definition transient (o : post_outcome) : bool :=
  match o with
  | ConnError => true
  | Http code content =>
      if (code =? 200) && py_truthy (py_strip content) then false
      else negb (z_in code auth_codes)
  end.

(* ------------------------------------------------------------------ *)
(** * Lemmas on the tracker *)

Lemma is_model_available_false now m st :
  available now st m = false -> is_model_available now m st = (false, st).
Proof.
  unfold available, is_model_available.
  destruct (st !! m) as [s|]; [|done].
  destruct (skip_until s <=? now); done.
Qed.

Lemma avail_state_frame now h m st :
  h <> m -> avail_state now h st !! m = st !! m.
Proof.
  intros Hne. unfold avail_state, is_model_available.
  destruct (st !! h) as [s|]; [|done].
  destruct (skip_until s <=? now); simpl; [by rewrite lookup_insert_ne | done].
Qed.

Lemma mark_frame T D now h m st :
  h <> m -> mark_model_failed T D now h st !! m = st !! m.
Proof.
  intros Hne. unfold mark_model_failed.
  destruct (T <=? _); by rewrite lookup_insert_ne.
Qed.

Lemma available_ext now st1 st2 m :
  st1 !! m = st2 !! m -> available now st1 m = available now st2 m.
Proof.
  intros E. unfold available, is_model_available. rewrite E.
  destruct (st2 !! m) as [s|]; [destruct (skip_until s <=? now)|]; done.
Qed.

(** After a successful availability check the counter reads 0, so the
    failure that follows leaves it at 1. *)
Lemma fails_after_check_and_mark T D now h st :
  available now st h = true ->
  fails_of (mark_model_failed T D now h (avail_state now h st)) h = 1.
Proof.
  unfold available, avail_state, is_model_available, fails_of, mark_model_failed.
  destruct (st !! h) as [s|] eqn:E.
  - destruct (skip_until s <=? now); simpl; [|discriminate].
    intros _. rewrite lookup_insert_eq. simpl.
    destruct (T <=? 0 + 1); by rewrite lookup_insert_eq.
  - simpl. intros _. rewrite E. simpl.
    destruct (T <=? 0 + 1); by rewrite lookup_insert_eq.
Qed.

Lemma avail_state_fails now h st :
  available now st h = true -> fails_of (avail_state now h st) h = 0.
Proof.
  unfold available, avail_state, is_model_available, fails_of.
  destruct (st !! h) as [s|] eqn:E.
  - destruct (skip_until s <=? now); simpl; [|discriminate].
    intros _. by rewrite lookup_insert_eq.
  - simpl. intros _. by rewrite E.
Qed.

(* ------------------------------------------------------------------ *)
(** * Lemmas on the dispatch loop *)

Section Loop.
Variables (T D now : Z).

Lemma loop_cons_unavailable resp h rest tried st :
  available now st h = false ->
  chat_loop T D now resp (h :: rest) tried st = chat_loop T D now resp rest tried st.
Proof.
  intros Hu. simpl. rewrite (is_model_available_false _ _ _ Hu). done.
Qed.

Lemma loop_cons_transient resp h rest tried st :
  available now st h = true -> transient (resp h) = true ->
  chat_loop T D now resp (h :: rest) tried st =
  chat_loop T D now resp rest (tried + 1)
    (mark_model_failed T D now h (avail_state now h st)).
Proof.
  unfold available, avail_state. intros Ha Ht. simpl.
  destruct (is_model_available now h st) as [av st1]. simpl in *. subst av. simpl.
  destruct (resp h) as [code content|]; [|done].
  simpl in Ht.
  destruct ((code =? 200) && py_truthy (py_strip content)); [discriminate|].
  destruct (code =? 401), (code =? 403); simpl in Ht; try discriminate.
  simpl. by case_match.
Qed.

Lemma loop_cons_success resp c s rest tried st :
  available now st c = true -> resp c = Http 200 s -> is_blank s = false ->
  chat_loop T D now resp (c :: rest) tried st =
  (ChatOk s, match avail_state now c st !! c with
             | Some _ => <[c := fresh_state]> (avail_state now c st)
             | None => avail_state now c st
             end).
Proof.
  unfold available, avail_state, is_blank. intros Ha Hr Hb. simpl.
  destruct (is_model_available now c st) as [av st1]. simpl in *. subst av. simpl.
  rewrite Hr. simpl. apply negb_false_iff in Hb. by rewrite Hb.
Qed.

Lemma loop_cons_auth resp c code body rest tried st :
  available now st c = true -> resp c = Http code body ->
  z_in code auth_codes = true ->
  chat_loop T D now resp (c :: rest) tried st = (ErrAuth, avail_state now c st).
Proof.
  unfold available, avail_state. intros Ha Hr Hc. simpl.
  destruct (is_model_available now c st) as [av st1]. simpl in *. subst av. simpl.
  rewrite Hr.
  unfold z_in, auth_codes in Hc. simpl in Hc.
  destruct (Z.eqb_spec code 401); [subst; reflexivity|].
  destruct (Z.eqb_spec code 403); [subst; reflexivity|discriminate].
Qed.

(** Running over a prefix of candidates that are skipped or fail
    transiently: each available one ends with counter 1, nothing else
    changes, and what the rest of the loop sees does not depend on the
    answers of models outside the prefix. *)
Lemma loop_prefix resp pre rest tried st :
  NoDup (pre ++ rest) ->
  Forall (fun m => available now st m = true -> transient (resp m) = true) pre ->
  exists k st1,
    (forall resp', (forall m, In m pre -> resp' m = resp m) ->
       chat_loop T D now resp' (pre ++ rest) tried st =
       chat_loop T D now resp' rest (tried + k) st1) /\
    (forall m, In m pre -> available now st m = true -> fails_of st1 m = 1) /\
    (forall m, In m pre -> available now st m = false -> st1 !! m = st !! m) /\
    (forall m, ~ In m pre -> st1 !! m = st !! m).
Proof.
  revert tried st.
  induction pre as [|h pre IH]; intros tried st Hnd Hall; cbn [app] in *.
  - exists 0, st. split; [|split; [|split]]; try done.
    intros resp' _. by rewrite Z.add_0_r.
  - apply NoDup_cons in Hnd as [Hh Hnd].
    assert (Hhpre : ~ In h pre) by (intros Hin; apply Hh; apply list_elem_of_In, in_or_app; by left).
    inversion Hall as [|? ? Hth Hall']; subst.
    destruct (available now st h) eqn:Ha.
    + set (st2 := mark_model_failed T D now h (avail_state now h st)).
      assert (Hfr : forall m, h <> m -> st2 !! m = st !! m).
      { intros m Hm. unfold st2. rewrite mark_frame; [|done].
        by apply avail_state_frame. }
      assert (Hall2 : Forall (fun m => available now st2 m = true ->
                                       transient (resp m) = true) pre).
      { apply Forall_forall. intros m Hm.
        rewrite (available_ext now st2 st m); [|apply Hfr; intros ->; first [contradiction | apply Hhpre, list_elem_of_In; assumption]].
        by apply (proj1 (Forall_forall _ _) Hall' m Hm). }
      destruct (IH (tried + 1) st2 Hnd Hall2) as (k & st1 & Heq & Hf & Hu & Hn).
      exists (k + 1), st1. split; [|split; [|split]].
      * intros resp' Hag.
        rewrite (loop_cons_transient resp' h); [| done | ].
        -- rewrite Heq; [|intros m Hm; apply Hag; by right].
           f_equal. lia.
        -- rewrite Hag; [|by left]. by apply Hth.
      * intros m [<-|Hm] Ham.
        -- unfold fails_of. rewrite Hn; [|done].
           by apply fails_after_check_and_mark.
        -- apply Hf; [done|].
           rewrite (available_ext now st2 st m); [done|].
           apply Hfr. intros ->; first [contradiction | apply Hhpre, list_elem_of_In; assumption].
      * intros m [<-|Hm] Ham; [congruence|].
        rewrite Hu; [|done|].
        -- apply Hfr. intros ->; first [contradiction | apply Hhpre, list_elem_of_In; assumption].
        -- rewrite (available_ext now st2 st m); [done|]. apply Hfr. intros ->; first [contradiction | apply Hhpre, list_elem_of_In; assumption].
      * intros m Hm. simpl in Hm. rewrite Hn; [|tauto]. apply Hfr. intros ->; tauto.
    + destruct (IH tried st Hnd) as (k & st1 & Heq & Hf & Hu & Hn).
      { apply Forall_forall. intros m Hm.
        by apply (proj1 (Forall_forall _ _) Hall' m Hm). }
      exists k, st1. split; [|split; [|split]].
      * intros resp' Hag. rewrite loop_cons_unavailable; [|done].
        apply Heq. intros m Hm. apply Hag. by right.
      * intros m [<-|Hm] Ham; [congruence|]. by apply Hf.
      * intros m [<-|Hm] Ham; [by apply Hn|]. by apply Hu.
      * intros m Hm. simpl in Hm. apply Hn. tauto.
Qed.

(** The loop never touches a model it does not list. *)
Lemma loop_frame resp models tried st m :
  ~ In m models -> snd (chat_loop T D now resp models tried st) !! m = st !! m.
Proof.
  revert tried st.
  induction models as [|h rest IH]; intros tried st Hm; [done|].
  assert (Hne : h <> m) by (intros ->; apply Hm; by left).
  assert (Hr : ~ In m rest) by (intros Hin; apply Hm; by right).
  simpl. unfold is_model_available.
  destruct (st !! h) as [s|] eqn:E; [destruct (skip_until s <=? now)|]; simpl;
    [| by apply IH |];
    destruct (resp h) as [code content|]; repeat case_match; simpl;
    rewrite ?IH by done; rewrite ?mark_frame by done;
    rewrite ?lookup_insert_ne by done; done.
Qed.

End Loop.

(** The state the success branch leaves: the availability check, then
    the reset of an entry that exists. *)
Lemma success_state_frame now c st m :
  c <> m ->
  (match avail_state now c st !! c with
   | Some _ => <[c := fresh_state]> (avail_state now c st)
   | None => avail_state now c st
   end) !! m = st !! m.
Proof.
  intros Hne. destruct (avail_state now c st !! c);
    rewrite ?lookup_insert_ne by done; by apply avail_state_frame.
Qed.

Lemma success_state_fails now c st :
  fails_of (match avail_state now c st !! c with
            | Some _ => <[c := fresh_state]> (avail_state now c st)
            | None => avail_state now c st
            end) c = 0.
Proof.
  unfold fails_of. destruct (avail_state now c st !! c) eqn:E.
  - by rewrite lookup_insert_eq.
  - by rewrite E.
Qed.

Lemma nodup_split_notin (pre post : list string) c :
  NoDup (pre ++ c :: post) -> ~ In c pre /\ ~ In c post.
Proof.
  intros Hnd. apply NoDup_app in Hnd as (_ & Hdis & Hnd2).
  apply NoDup_cons in Hnd2 as [Hc _]. split.
  - intros Hin. apply (Hdis c); [by apply list_elem_of_In | by left].
  - intros Hin. apply Hc. by apply list_elem_of_In.
Qed.

(* ------------------------------------------------------------------ *)
(** * C1: the three-backend scenario *)

Definition scenario_models : list string := ["backend1"; "backend2"; "backend3"].

(** Backends #1 and #2 answer 429, backend #3 answers with "hello". *)
Definition scenario_resp (m : string) : post_outcome :=
  if String.eqb m "backend3" then Http 200 "hello" else Http 429 EmptyString.

(** Backend #2 rejects the credential. *)
Definition auth_resp (m : string) : post_outcome :=
  if String.eqb m "backend2" then Http 401 EmptyString else scenario_resp m.

(** C1 (code evaluated at the failing input): with the default threshold
    T = 2 and D = 60, one run returns "hello" and leaves backends #1 and
    #2 with counter 1, but after the second run (one second later)
    backend #1's counter still reads 1 and it is available: the
    availability check before each attempt resets the counter, since
    skip_until is still 0. *)
Theorem scenario_threshold_never_reached :
  let run1 := openrouter_chat_sync 2 60 true 0 scenario_resp scenario_models ∅ in
  let run2 := openrouter_chat_sync 2 60 true 1 scenario_resp scenario_models (snd run1) in
  fst run1 = ChatOk "hello" /\
  fails_of (snd run1) "backend1" = 1 /\ fails_of (snd run1) "backend2" = 1 /\
  fst run2 = ChatOk "hello" /\
  fails_of (snd run2) "backend1" = 1 /\
  available 2 (snd run2) "backend1" = true.
Proof. vm_compute. repeat split. Qed.

(* ------------------------------------------------------------------ *)
(** * C2: first success after transient failures *)

(** C2: if the models before candidate [c] are each either in cooldown
    or fail transiently, and [c] is available and answers 200 with
    non-blank content [s], the run returns [s]; every available model
    before [c] ends with counter 1, [c]'s counter reads 0, and no other
    entry of the tracker changes (so exactly one failure per attempted
    model before [c]). *)
Theorem dispatch_returns_first_success T D now resp (pre post : list string)
    (c s : string) (st : gmap string model_state) :
  NoDup (pre ++ c :: post) ->
  Forall (fun m => available now st m = true -> transient (resp m) = true) pre ->
  available now st c = true ->
  resp c = Http 200 s -> is_blank s = false ->
  let res := openrouter_chat_sync T D true now resp (pre ++ c :: post) st in
  fst res = ChatOk s /\
  (forall m, In m pre -> available now st m = true -> fails_of (snd res) m = 1) /\
  fails_of (snd res) c = 0 /\
  (forall m, m <> c -> ~ (In m pre /\ available now st m = true) ->
     snd res !! m = st !! m).
Proof.
  intros Hnd Hall Hc Hr Hb res. unfold res, openrouter_chat_sync. cbn [negb].
  destruct (nodup_split_notin _ _ _ Hnd) as [Hcpre _].
  destruct (loop_prefix T D now resp pre (c :: post) 0 st Hnd Hall)
    as (k & st1 & Heq & Hf & Hu & Hn).
  rewrite (Heq resp) by done.
  assert (Hc1 : available now st1 c = true).
  { rewrite (available_ext now st1 st c); [done|]. by apply Hn. }
  rewrite (loop_cons_success T D now resp c s post (0 + k) st1 Hc1 Hr Hb).
  cbn [fst snd]. split; [done|split; [|split]].
  - intros m Hm Ham. unfold fails_of.
    rewrite success_state_frame by (intros ->; contradiction).
    by apply Hf.
  - apply success_state_fails.
  - intros m Hmc Hm. rewrite success_state_frame by congruence.
    destruct (in_dec string_dec m pre) as [Hin|Hin].
    + apply Hu; [done|]. destruct (available now st m); [tauto|done].
    + by apply Hn.
Qed.

Lemma dispatch_returns_first_success_witness :
  fst (openrouter_chat_sync 2 60 true 0 scenario_resp
         (["backend1"; "backend2"] ++ "backend3" :: []) ∅) = ChatOk "hello".
Proof.
  destruct (dispatch_returns_first_success 2 60 0 scenario_resp
              ["backend1"; "backend2"] [] "backend3" "hello" ∅) as [Hres _].
  - apply (bool_decide_unpack _). vm_compute. exact I.
  - repeat constructor.
  - reflexivity.
  - reflexivity.
  - reflexivity.
  - exact Hres.
Defined.

(* ------------------------------------------------------------------ *)
(** * C3: the cooldown window *)

(** C3: once a failure recorded at time [t0] brings the counter of [m]
    to the threshold, _is_model_available answers false (leaving the
    state as it is) at every time before [t0 + D], and at every time
    from [t0 + D] on answers true with the counter reset to 0. *)
Theorem cooldown_after_threshold T D t0 (m : string) (st : gmap string model_state) :
  let st' := mark_model_failed T D t0 m st in
  T <= fails_of st' m ->
  (forall t, t < t0 + D -> is_model_available t m st' = (false, st')) /\
  (forall t, t0 + D <= t ->
     available t st' m = true /\ fails_of (avail_state t m st') m = 0).
Proof.
  intros st' HT. unfold st', mark_model_failed in *.
  set (f := fails (default fresh_state (st !! m)) + 1) in *.
  destruct (Z.leb_spec T f) as [Hle|Hgt].
  - split.
    + intros t Ht. unfold is_model_available. rewrite lookup_insert_eq. simpl.
      destruct (Z.leb_spec (t0 + D) t); [lia|done].
    + intros t Ht. unfold available, avail_state, is_model_available.
      rewrite lookup_insert_eq. simpl.
      destruct (Z.leb_spec (t0 + D) t); [|lia]. simpl.
      split; [done|]. unfold fails_of. by rewrite lookup_insert_eq.
  - exfalso. unfold fails_of in HT. rewrite lookup_insert_eq in HT. simpl in HT. lia.
Qed.

Lemma cooldown_after_threshold_witness :
  available 30 (mark_model_failed 1 60 0 "backend1" ∅) "backend1" = false /\
  available 60 (mark_model_failed 1 60 0 "backend1" ∅) "backend1" = true.
Proof.
  pose proof (cooldown_after_threshold 1 60 0 "backend1" ∅) as Hc.
  cbv zeta in Hc. destruct Hc as [Hlt Hge]; [vm_compute; discriminate|].
  split.
  - unfold available. rewrite (Hlt 30); [reflexivity|lia].
  - apply (Hge 60). lia.
Defined.

(* ------------------------------------------------------------------ *)
(** * C4: an auth error aborts the run *)

(** C4: if the models before [c] are each in cooldown or fail
    transiently and [c] answers 401 or 403, the run ends with the auth
    error; [c]'s counter reads 0, the models after [c] are untouched, and
    the outcome does not depend on what the models after [c] would
    answer (they are never called). *)
Theorem dispatch_auth_aborts T D now resp (pre post : list string) (c : string)
    (code : Z) (body : string) (st : gmap string model_state) :
  NoDup (pre ++ c :: post) ->
  Forall (fun m => available now st m = true -> transient (resp m) = true) pre ->
  available now st c = true ->
  (code = 401 \/ code = 403) -> resp c = Http code body ->
  let res := openrouter_chat_sync T D true now resp (pre ++ c :: post) st in
  fst res = ErrAuth /\
  fails_of (snd res) c = 0 /\
  (forall m, In m post -> snd res !! m = st !! m) /\
  (forall resp', (forall m, In m pre \/ m = c -> resp' m = resp m) ->
     openrouter_chat_sync T D true now resp' (pre ++ c :: post) st = res).
Proof.
  intros Hnd Hall Hc Hcode Hr res. unfold res, openrouter_chat_sync. cbn [negb].
  assert (Hz : z_in code auth_codes = true) by (destruct Hcode as [-> | ->]; reflexivity).
  destruct (nodup_split_notin _ _ _ Hnd) as [Hcpre Hcpost].
  pose proof Hnd as Hnd'. apply NoDup_app in Hnd' as (_ & Hdis & _).
  destruct (loop_prefix T D now resp pre (c :: post) 0 st Hnd Hall)
    as (k & st1 & Heq & Hf & Hu & Hn).
  assert (Hc1 : available now st1 c = true).
  { rewrite (available_ext now st1 st c); [done|]. by apply Hn. }
  assert (Hrun : forall resp', (forall m, In m pre \/ m = c -> resp' m = resp m) ->
            chat_loop T D now resp' (pre ++ c :: post) 0 st = (ErrAuth, avail_state now c st1)).
  { intros resp' Hag. rewrite Heq by (intros m Hm; apply Hag; by left).
    apply (loop_cons_auth T D now resp' c code body); [done| |done].
    rewrite Hag; [done|by right]. }
  rewrite (Hrun resp) by done. cbn [fst snd].
  split; [done|split; [|split]].
  - by apply avail_state_fails.
  - intros m Hm. rewrite avail_state_frame by (intros ->; contradiction).
    apply Hn. intros Hin. apply (Hdis m); apply list_elem_of_In; [done|by right].
  - intros resp' Hag. by apply Hrun.
Qed.

Lemma dispatch_auth_aborts_witness :
  fst (openrouter_chat_sync 2 60 true 0 auth_resp
         (["backend1"] ++ "backend2" :: ["backend3"]) ∅) = ErrAuth.
Proof.
  destruct (dispatch_auth_aborts 2 60 0 auth_resp ["backend1"] ["backend3"]
              "backend2" 401 EmptyString ∅) as [Hres _].
  - apply (bool_decide_unpack _). vm_compute. exact I.
  - repeat constructor.
  - reflexivity.
  - left; reflexivity.
  - reflexivity.
  - exact Hres.
Defined.

(* ------------------------------------------------------------------ *)
(** * C6: the model catalog *)

Lemma py_in_count (x : string) (l : list string) :
  py_in x l = false -> count_occ string_dec l x = 0%nat.
Proof.
  induction l as [|y l IH]; [done|]. unfold py_in. simpl.
  destruct (String.eqb_spec x y) as [->|Hne]; [done|]. simpl.
  intros Hl. destruct (string_dec y x) as [->|_]; [congruence|]. by apply IH.
Qed.

Lemma py_remove_count (x : string) (l : list string) :
  py_in x l = true -> S (count_occ string_dec (py_remove x l) x) = count_occ string_dec l x.
Proof.
  induction l as [|y l IH]; [done|]. unfold py_in. simpl.
  destruct (String.eqb_spec x y) as [->|Hne]; simpl.
  - intros _. destruct (string_dec y y); [done|congruence].
  - intros Hl. destruct (string_dec y x) as [->|_]; [congruence|]. by apply IH.
Qed.

Lemma py_remove_first (x : string) (pre post : list string) :
  ~ In x pre -> py_remove x (pre ++ x :: post) = (pre ++ post)%list.
Proof.
  induction pre as [|y pre IH]; simpl; intros Hx.
  - by rewrite String.eqb_refl.
  - destruct (String.eqb_spec x y) as [->|_]; [tauto|]. rewrite IH; tauto.
Qed.

Lemma py_in_middle (x : string) (pre post : list string) :
  py_in x (pre ++ x :: post) = true.
Proof.
  unfold py_in. apply existsb_exists. exists x.
  split; [apply in_or_app; right; by left|apply String.eqb_refl].
Qed.

(** The listing names the default among its free models twice. *)
Definition listing_default_twice : listing_response :=
  ListStatus 200 (Some
    [ {| e_id := Some "openrouter/free"; e_prompt := Some "0"; e_completion := Some "0" |};
      {| e_id := Some "meta/llama:free"; e_prompt := Some "0"; e_completion := Some "0" |};
      {| e_id := Some "openrouter/free"; e_prompt := Some "0"; e_completion := Some "0" |} ]).

(** C6 (counterexample): when the remote listing names the default
    twice, it appears twice in the result ([list.remove] drops only the
    first occurrence). *)
Lemma fetch_default_twice_counterexample :
  fetch_free_models listing_default_twice =
    ["openrouter/free"; "meta/llama:free"; "openrouter/free"] /\
  count_occ string_dec (fetch_free_models listing_default_twice) default_model = 2%nat.
Proof. split; reflexivity. Qed.

(** C6 (amended): the result always starts with the default, so it is
    never empty; the default appears exactly once whenever the free
    models of a 200 listing name it at most once; when they name it
    (possibly several times), only its first occurrence is moved to the
    front and everything else, later occurrences included, stays in
    order; on a transport error or a non-200 status the result is the
    fixed fallback list. *)
Theorem fetch_default_first (r : listing_response) :
  (exists rest, fetch_free_models r = default_model :: rest) /\
  ((forall data free, r = ListStatus 200 (Some data) -> collect_free data = Some free ->
      (count_occ string_dec free default_model <= 1)%nat) ->
   count_occ string_dec (fetch_free_models r) default_model = 1%nat) /\
  (forall data pre post,
     r = ListStatus 200 (Some data) ->
     collect_free data = Some (pre ++ default_model :: post)%list ->
     ~ In default_model pre ->
     fetch_free_models r = default_model :: (pre ++ post)%list) /\
  ((r = ListTransportError \/ exists code data, r = ListStatus code data /\ code <> 200) ->
   fetch_free_models r = fallback_models).
Proof.
  assert (Hfb : count_occ string_dec fallback_models default_model = 1%nat) by reflexivity.
  enough (Hmid : forall data pre post,
     r = ListStatus 200 (Some data) ->
     collect_free data = Some (pre ++ default_model :: post)%list ->
     ~ In default_model pre ->
     fetch_free_models r = default_model :: (pre ++ post)%list).
  { cut ((exists rest, fetch_free_models r = default_model :: rest) /\
     ((forall data free, r = ListStatus 200 (Some data) -> collect_free data = Some free ->
         (count_occ string_dec free default_model <= 1)%nat) ->
      count_occ string_dec (fetch_free_models r) default_model = 1%nat) /\
     ((r = ListTransportError \/ exists code data, r = ListStatus code data /\ code <> 200) ->
      fetch_free_models r = fallback_models)); [tauto|].
  destruct r as [|code [data|]]; simpl.
  - split; [by eexists|]. split; [done|]. done.
  - destruct (Z.eqb_spec code 200) as [->|Hne].
    + destruct (collect_free data) as [free|] eqn:Ec.
      * split; [|split].
        -- destruct (negb (py_in default_model free)); by eexists.
        -- intros Hle. specialize (Hle data free eq_refl Ec).
           destruct (py_in default_model free) eqn:Ein; simpl.
           ++ pose proof (py_remove_count _ _ Ein) as Hc.
              destruct (string_dec default_model default_model); [|congruence]. lia.
           ++ destruct (string_dec default_model default_model); [|congruence].
              by rewrite py_in_count.
        -- intros [Ht|(c & d & Heq & Hc)]; [discriminate|]. congruence.
      * split; [by eexists|]. split; [done|]. done.
    + split; [by eexists|]. split; [done|]. done.
  - split; [by eexists|]. split; [done|]. done. }
  intros data pre post -> Ec Hpre. simpl. rewrite Ec, py_in_middle. simpl.
  by rewrite py_remove_first.
Qed.

(* ------------------------------------------------------------------ *)
(** * C10: the stress rater *)

(** C10 (counterexample): a reply " 3" starts with a space, yet the
    level is 3, not the default 1: the reply is stripped first. *)
Lemma stress_leading_space_counterexample : get_stress_level (ChatOk " 3") = 3.
Proof. reflexivity. Qed.

(** The rule as the amended claim words it: the first character of the
    stripped reply, when it is one of '1'..'5', else 1. *)
Definition stress_rule (r : chat_result) : Z :=
  match r with
  | ChatOk txt =>
      match py_strip txt with
      | String c _ =>
          let n := Z.of_nat (nat_of_ascii c) in
          if (49 <=? n) && (n <=? 53) then n - 48 else 1
      | EmptyString => 1
      end
  | _ => 1
  end.

(** C10 (amended): get_stress_level is total, lies in [1, 5], and
    follows [stress_rule]. *)
Theorem stress_level_spec (r : chat_result) :
  1 <= get_stress_level r <= 5 /\ get_stress_level r = stress_rule r.
Proof.
  destruct r as [txt| | |]; simpl; [|lia..].
  destruct (py_strip txt) as [|c s]; [lia|].
  unfold py_isdigit, py_int_char.
  set (n := Z.of_nat (nat_of_ascii c)).
  assert (0 <= n) by (unfold n; lia).
  destruct (Z.leb_spec 48 n), (Z.leb_spec n 57); simpl;
    destruct (Z.leb_spec 1 (n - 48)), (Z.leb_spec (n - 48) 5); simpl;
    destruct (Z.leb_spec 49 n), (Z.leb_spec n 53); simpl;
    destruct (Z.eqb_spec n 178), (Z.eqb_spec n 179), (Z.eqb_spec n 185); simpl;
    lia.
Qed.

(* ------------------------------------------------------------------ *)
(** * C7: bounded history *)

(** The last [k] elements of a list. *)
Definition last_n {A} (k : nat) (l : list A) : list A := drop (length l - k) l.

Lemma trim_history_last_n (h : list chat_message) :
  trim_history h = last_n 24 h.
Proof.
  unfold trim_history, last_n, py_slice_from, HISTORY_PAIRS_TO_KEEP. simpl.
  change (12 * 2) with 24.
  destruct (Z.leb_spec (Z.of_nat (length h)) 24).
  - replace (length h - 24)%nat with 0%nat by lia. done.
  - f_equal. lia.
Qed.

Lemma last_n_length {A} k (l : list A) : (length (last_n k l) <= k)%nat.
Proof. unfold last_n. rewrite length_drop. lia. Qed.

Lemma last_n_short {A} k (l : list A) : (length l <= k)%nat -> last_n k l = l.
Proof. intros H. unfold last_n. by replace (length l - k)%nat with 0%nat by lia. Qed.

Lemma last_n_app {A} k (l l' : list A) :
  last_n k (last_n k l ++ l') = last_n k (l ++ l').
Proof.
  unfold last_n.
  transitivity (drop (length (l ++ l') - k)
                  (take (length l - k) l ++ (drop (length l - k) l ++ l'))).
  2: { by rewrite app_assoc, take_drop. }
  rewrite (drop_app_ge (take (length l - k) l));
    rewrite ?length_take, ?length_app, ?length_drop; [|lia].
  f_equal. lia.
Qed.

Definition append_trim (h : list chat_message) (m : chat_message) : list chat_message :=
  trim_history (h ++ [m]).

Lemma fold_append_trim (ms h : list chat_message) :
  (length h <= 24)%nat -> fold_left append_trim ms h = last_n 24 (h ++ ms).
Proof.
  revert h. induction ms as [|m ms IH]; intros h Hh; simpl.
  - rewrite app_nil_r. by rewrite last_n_short.
  - rewrite IH by (unfold append_trim; rewrite trim_history_last_n; apply last_n_length).
    unfold append_trim. rewrite trim_history_last_n, last_n_app, <- app_assoc. done.
Qed.

(** Every stored history has at most 2K = 24 messages. *)
Definition hist_bounded (ss : gmap Z (list chat_message)) : Prop :=
  forall u h, ss !! u = Some h -> (length h <= 24)%nat.

(** [m] keeps the histories bounded, whatever it returns. *)
Definition keeps_bounded {A} (m : H A) : Prop :=
  forall s, hist_bounded (chat_sessions s) -> hist_bounded (chat_sessions (snd (m s))).

Lemma keeps_bind {A B} (m : H A) (k : A -> H B) :
  keeps_bounded m -> (forall a, keeps_bounded (k a)) -> keeps_bounded (h_bind m k).
Proof.
  intros Hm Hk s Hs. unfold h_bind.
  specialize (Hm s Hs). destruct (m s) as [[a|] s']; [by apply Hk|done].
Qed.

Lemma keeps_try (b h : H unit) :
  keeps_bounded b -> keeps_bounded h -> keeps_bounded (try_except b h).
Proof.
  intros Hb Hh s Hs. unfold try_except.
  specialize (Hb s Hs). destruct (b s) as [[a|] s'] eqn:E; simpl in *; [done|]. by apply Hh.
Qed.

Lemma keeps_deliver ev : keeps_bounded (deliver ev).
Proof. intros s Hs. unfold deliver. destruct (sends s) as [|[] ?]; done. Qed.

Lemma keeps_emit ev : keeps_bounded (emit ev).
Proof. intros s Hs. done. Qed.

Lemma keeps_raise {A} : keeps_bounded (@h_raise A).
Proof. intros s Hs. done. Qed.

Lemma keeps_get uid : keeps_bounded (get_history uid).
Proof. intros s Hs. done. Qed.

Lemma keeps_set f :
  (forall ss, hist_bounded ss -> hist_bounded (f ss)) -> keeps_bounded (set_sessions f).
Proof. intros Hf s Hs. by apply Hf. Qed.

Lemma bounded_insert ss uid h :
  hist_bounded ss -> (length h <= 24)%nat -> hist_bounded (<[uid := h]> ss).
Proof.
  intros Hs Hh u h'. destruct (decide (uid = u)) as [->|Hne].
  - rewrite lookup_insert_eq. by intros [= <-].
  - rewrite lookup_insert_ne by done. apply Hs.
Qed.

Lemma bounded_delete ss uid : hist_bounded ss -> hist_bounded (delete uid ss).
Proof.
  intros Hs u h'. destruct (decide (uid = u)) as [->|Hne].
  - by rewrite lookup_delete_eq.
  - rewrite lookup_delete_ne by done. apply Hs.
Qed.

Lemma handle_message_keeps_bounded key_set uid text rate_res reply_res :
  keeps_bounded (handle_message key_set uid text rate_res reply_res).
Proof.
  unfold handle_message. destruct key_set; simpl; [|apply keeps_deliver].
  apply keeps_try.
  - apply keeps_bind.
    { apply keeps_set. intros ss Hs. destruct (ss !! uid); [done|].
      apply bounded_insert; [done|simpl; lia]. }
    intros _. apply keeps_bind; [apply keeps_deliver|]. intros _.
    destruct (is_crisis text); [apply keeps_deliver|].
    apply keeps_bind; [apply keeps_get|]. intros h0.
    apply keeps_bind.
    { apply keeps_set. intros ss Hs. apply bounded_insert; [done|].
      rewrite trim_history_last_n. apply last_n_length. }
    intros _. apply keeps_bind; [apply keeps_emit|]. intros _.
    apply keeps_bind; [apply keeps_emit|]. intros _.
    destruct reply_res; [|apply keeps_raise..].
    apply keeps_bind; [|intros _; apply keeps_deliver].
    apply keeps_set. intros ss Hs. apply bounded_insert; [done|].
    rewrite trim_history_last_n. apply last_n_length.
  - apply keeps_bind; [|intros _; apply keeps_deliver].
    apply keeps_set. intros ss Hs. by apply bounded_delete.
Qed.

(** C7: appending messages one at a time, each followed by
    _trim_history, to a history of at most 2K = 24 messages keeps at most
    24 and leaves exactly the last 24 of all messages in their order
    (for 2K + 1 appends to an empty history: all but the first); and a
    run of handle_message keeps every stored history at most 24 long. *)
Theorem history_bounded_fifo (h ms : list chat_message) :
  (length h <= 24)%nat ->
  let h' := fold_left append_trim ms h in
  (length h' <= 2 * Z.to_nat HISTORY_PAIRS_TO_KEEP)%nat /\
  h' = drop (length (h ++ ms) - 24) (h ++ ms) /\
  (forall key_set uid text rate_res reply_res ss outs,
     hist_bounded ss ->
     hist_bounded (chat_sessions (snd (run_handler key_set uid text rate_res reply_res ss outs)))).
Proof.
  intros Hh h'. unfold h'. rewrite fold_append_trim by done.
  split; [|split].
  - pose proof (last_n_length 24 (h ++ ms)). unfold HISTORY_PAIRS_TO_KEEP. simpl. lia.
  - done.
  - intros key_set uid text rate_res reply_res ss outs Hs.
    unfold run_handler. by apply handle_message_keeps_bounded.
Qed.

Lemma history_bounded_fifo_witness :
  fold_left append_trim
    (map (fun i => {| msg_role := RoleUser; msg_content := String (ascii_of_nat i) EmptyString |})
       (seq 65 25)) [] =
  map (fun i => {| msg_role := RoleUser; msg_content := String (ascii_of_nat i) EmptyString |})
    (seq 66 24).
Proof.
  destruct (history_bounded_fifo []
     (map (fun i => {| msg_role := RoleUser; msg_content := String (ascii_of_nat i) EmptyString |})
        (seq 65 25))) as [_ [Heq _]]; [simpl; lia|].
  rewrite Heq. reflexivity.
Defined.

(* ------------------------------------------------------------------ *)
(** * C5: crisis detection and the crisis path of the handler *)

Ltac run_handler_steps :=
  unfold run_handler, handle_message, try_except, h_bind, set_sessions,
    get_history, emit, deliver, h_raise, h_ret; cbn -[is_crisis trim_history].

(** C5: is_crisis holds exactly when some keyword is a substring of the
    lower-cased text ("I want to DIE" is flagged, "I had a good day" is
    not); and on a flagged text the handler (key set, typing action and
    reply delivered) sends the fixed crisis reply with the button and
    returns: no dispatch, and the stored history is as before (a first
    message only creates the empty session, which the handler does before
    the check). *)
Theorem crisis_detect_and_short_circuit (uid : Z) (text : string)
    (ss : gmap Z (list chat_message)) (rate_res reply_res : chat_result)
    (rest : list bool) :
  (is_crisis text = true <->
     exists kw, In kw CRISIS_KEYWORDS /\ py_contains kw (py_lower text) = true) /\
  is_crisis "I want to DIE" = true /\
  is_crisis "I had a good day" = false /\
  (is_crisis text = true ->
   run_handler true uid text rate_res reply_res ss (true :: true :: rest) =
     (Ret tt, {| chat_sessions := match ss !! uid with
                                  | None => <[uid := []]> ss
                                  | Some _ => ss
                                  end;
                 sends := rest;
                 log := [EvTyping; EvReply crisis_reply true] |})).
Proof.
  split; [|split; [reflexivity|split; [reflexivity|]]].
  - unfold is_crisis. rewrite existsb_exists. done.
  - intros Hc. run_handler_steps. rewrite Hc. reflexivity.
Qed.

Lemma crisis_detect_and_short_circuit_witness :
  run_handler true 7 "I want to DIE" ErrAuth ErrAuth ∅ [true; true] =
    (Ret tt, {| chat_sessions := {[7 := []]}; sends := [];
                log := [EvTyping; EvReply crisis_reply true] |}).
Proof.
  destruct (crisis_detect_and_short_circuit 7 "I want to DIE" ∅ ErrAuth ErrAuth [])
    as (_ & _ & _ & Hrun).
  rewrite Hrun; reflexivity.
Defined.

(* ------------------------------------------------------------------ *)
(** * C8: a failed rating call degrades to the default level *)

(** The reply the handler sends for a dispatched reply [r]. *)
Definition final_reply (r : string) : string :=
  if py_truthy (py_strip r) then py_strip r else default_reply.

(** C8: when the rating dispatch raises and the reply dispatch returns
    [r] (text not flagged, key set, typing action and reply delivered),
    the level is the default 1 and the user receives the reply without
    the button. *)
Theorem rating_failure_degrades (uid : Z) (text : string)
    (ss : gmap Z (list chat_message)) (rate_res : chat_result) (r : string)
    (rest : list bool) :
  is_crisis text = false ->
  (forall s, rate_res <> ChatOk s) ->
  let res := run_handler true uid text rate_res (ChatOk r) ss (true :: true :: rest) in
  get_stress_level rate_res = 1 /\
  (3 <=? get_stress_level rate_res) = false /\
  fst res = Ret tt /\
  exists msgs,
    log (snd res) = [EvTyping; EvDispatch (stress_messages text) 3;
                     EvDispatch msgs 220; EvReply (final_reply r) false].
Proof.
  intros Hc Hr res.
  assert (H1 : get_stress_level rate_res = 1).
  { destruct rate_res as [s| | |]; [by destruct (Hr s)|done..]. }
  split; [done|split; [by rewrite H1|]].
  unfold res. run_handler_steps. rewrite Hc. cbn.
  rewrite H1. simpl. split; [done|]. eexists. reflexivity.
Qed.

Lemma rating_failure_degrades_witness :
  fst (run_handler true 7 "hello" (ErrExhausted 3) (ChatOk "Hi there") ∅ [true; true]) = Ret tt.
Proof.
  destruct (rating_failure_degrades 7 "hello" ∅ (ErrExhausted 3) "Hi there" [])
    as (_ & _ & Hret & _).
  - reflexivity.
  - intros s; discriminate.
  - exact Hret.
Defined.

(* ------------------------------------------------------------------ *)
(** * C9: failures after the crisis check *)

(** C9 (counterexample): the reply dispatch succeeds but sending the
    reply fails, and sending the generic error message fails too; the
    second failure leaves the handler (the result is [Raise]). *)
Lemma error_path_propagates_counterexample :
  fst (run_handler true 7 "hello" (ChatOk "1") (ChatOk "Hi there") ∅
         [true; false; false]) = Raise.
Proof. reflexivity. Qed.

(** C9 (amended): for a text that is not flagged, when the reply
    dispatch raises, or it succeeds and sending the reply fails, the
    handler removes the user's session and sends the fixed generic
    message (no error text); it returns normally when that message is
    delivered ([b] = true), and the send's failure propagates otherwise. *)
Theorem error_path_clears_session (uid : Z) (text : string)
    (ss : gmap Z (list chat_message)) (rate_res reply_res : chat_result)
    (b : bool) (rest : list bool) :
  is_crisis text = false ->
  let outs := match reply_res with
              | ChatOk _ => true :: false :: b :: rest
              | _ => true :: b :: rest
              end in
  let res := run_handler true uid text rate_res reply_res ss outs in
  chat_sessions (snd res) = delete uid ss /\
  fst res = (if b then Ret tt else Raise) /\
  exists msgs,
    log (snd res) = ([EvTyping; EvDispatch (stress_messages text) 3; EvDispatch msgs 220] ++
                     (if b then [EvReply error_reply false] else []))%list.
Proof.
  intros Hc outs res. unfold res, outs.
  destruct reply_res as [r| | |]; run_handler_steps; rewrite Hc; cbn;
    destruct b; cbn; (split; [rewrite !delete_insert_eq; destruct (ss !! uid);
                [done|by rewrite delete_insert_eq]|]);
    (split; [done|]); eexists; reflexivity.
Qed.

Lemma error_path_clears_session_witness :
  chat_sessions (snd (run_handler true 7 "hello" (ChatOk "1") (ChatOk "Hi there")
                        {[7 := []]} [true; false; true])) = ∅.
Proof.
  destruct (error_path_clears_session 7 "hello" {[7 := []]} (ChatOk "1")
              (ChatOk "Hi there") true []) as [Hss _].
  - reflexivity.
  - cbv zeta in Hss. rewrite Hss. apply delete_singleton_eq.
Defined.

(* ================================================================== *)
(** * Further properties of the code *)

(* ------------------------------------------------------------------ *)
(** ** The dispatcher *)

Lemma loop_reply_listed T D now resp models tried st r :
  fst (chat_loop T D now resp models tried st) = ChatOk r ->
  is_blank r = false /\ exists m, In m models /\ resp m = Http 200 r.
Proof.
  revert tried st.
  induction models as [|h rest IH]; intros tried st Hr; simpl in Hr; [discriminate|].
  assert (Hrest : fst (chat_loop T D now resp rest (tried + 1)
                        (mark_model_failed T D now h
                           (snd (is_model_available now h st)))) = ChatOk r ->
                  is_blank r = false /\ exists m, In m (h :: rest) /\ resp m = Http 200 r).
  { intros Hl. destruct (IH _ _ Hl) as [Hb (m & Hm & Hrm)].
    split; [done|]. exists m. split; [by right|done]. }
  destruct (is_model_available now h st) as [av st1]. simpl in Hrest.
  destruct av; cbn [negb] in Hr.
  - destruct (resp h) as [code content|] eqn:Er; [|by apply Hrest].
    destruct ((code =? 200) && py_truthy (py_strip content)) eqn:Eok.
    + cbn [fst] in Hr. injection Hr as <-.
      apply andb_true_iff in Eok as [E200 Etr]. apply Z.eqb_eq in E200. subst code.
      split; [unfold is_blank; by rewrite Etr|].
      exists h. split; [by left|done].
    + destruct (_ || _); [by apply Hrest|].
      destruct (_ || _); [discriminate|by apply Hrest].
  - destruct (IH _ _ Hr) as [Hb (m & Hm & Hrm)].
    split; [done|]. exists m. split; [by right|done].
Qed.

(** The dispatcher only returns text that is not blank, and only what a
    model of the list answered with status 200. *)
Theorem dispatch_reply_listed T D key now resp (models : list string)
    (st : gmap string model_state) (r : string) :
  fst (openrouter_chat_sync T D key now resp models st) = ChatOk r ->
  is_blank r = false /\ exists m, In m models /\ resp m = Http 200 r.
Proof.
  unfold openrouter_chat_sync. destruct key; simpl; [|discriminate].
  apply loop_reply_listed.
Qed.

Lemma dispatch_reply_listed_witness :
  is_blank "hello" = false /\
  exists m, In m scenario_models /\ scenario_resp m = Http 200 "hello".
Proof.
  apply (dispatch_reply_listed 2 60 true 0 scenario_resp scenario_models ∅ "hello").
  reflexivity.
Defined.

(** The dispatcher never changes the tracker entry of a model that is not
    in MODEL_PRIORITY. *)
Theorem dispatch_untouched_outside T D key now resp (models : list string)
    (st : gmap string model_state) (m : string) :
  ~ In m models ->
  snd (openrouter_chat_sync T D key now resp models st) !! m = st !! m.
Proof.
  intros Hm. unfold openrouter_chat_sync. destruct key; simpl; [|done].
  by apply loop_frame.
Qed.

Lemma dispatch_untouched_outside_witness :
  snd (openrouter_chat_sync 2 60 true 0 scenario_resp scenario_models
         {[ "other" := {| fails := 1; skip_until := 90 |} ]}) !! "other" =
    Some {| fails := 1; skip_until := 90 |}.
Proof.
  rewrite (dispatch_untouched_outside 2 60 true 0 scenario_resp scenario_models _ "other").
  - reflexivity.
  - simpl. intros [H|[H|[H|[]]]]; discriminate.
Defined.

Lemma loop_all_fail_count T D now resp models tried st :
  NoDup models ->
  Forall (fun m => available now st m = true -> transient (resp m) = true) models ->
  fst (chat_loop T D now resp models tried st) =
    ErrExhausted (tried + Z.of_nat (length (List.filter (available now st) models))).
Proof.
  revert tried st.
  induction models as [|h rest IH]; intros tried st Hnd Hall.
  - simpl. by rewrite Z.add_0_r.
  - apply NoDup_cons in Hnd as [Hh Hnd].
    inversion Hall as [|? ? Hth Hall']; subst.
    destruct (available now st h) eqn:Ha.
    + rewrite loop_cons_transient by auto.
      set (st2 := mark_model_failed T D now h (avail_state now h st)).
      assert (Hfr : forall m, In m rest -> available now st2 m = available now st m).
      { intros m Hm. apply available_ext. unfold st2.
        rewrite mark_frame, avail_state_frame; [done| |];
          intros ->; apply Hh; by apply list_elem_of_In. }
      rewrite IH; [|done|].
      * rewrite (filter_ext_in (available now st2) (available now st) rest) by done.
        cbn [List.filter]. rewrite Ha. cbn [length]. f_equal. lia.
      * apply Forall_forall. intros m Hm. rewrite Hfr by (by apply list_elem_of_In).
        by apply (proj1 (Forall_forall _ _) Hall' m Hm).
    + rewrite loop_cons_unavailable by done.
      rewrite IH; [|done|done]. cbn [List.filter]. by rewrite Ha.
Qed.

(** When every model of the list is in cooldown or fails transiently, the
    dispatcher raises the exhaustion error with the number of models it
    actually called; each of them ends with counter 1 and no other entry
    changes. *)
Theorem dispatch_all_fail_exhausted T D now resp (models : list string)
    (st : gmap string model_state) :
  NoDup models ->
  Forall (fun m => available now st m = true -> transient (resp m) = true) models ->
  let res := openrouter_chat_sync T D true now resp models st in
  fst res = ErrExhausted (Z.of_nat (length (List.filter (available now st) models))) /\
  (forall m, In m models -> available now st m = true -> fails_of (snd res) m = 1) /\
  (forall m, ~ (In m models /\ available now st m = true) -> snd res !! m = st !! m).
Proof.
  intros Hnd Hall res. unfold res, openrouter_chat_sync. cbn [negb].
  split; [by rewrite loop_all_fail_count|].
  assert (Hnd' : NoDup (models ++ [])) by (by rewrite app_nil_r).
  destruct (loop_prefix T D now resp models [] 0 st Hnd' Hall)
    as (k & st1 & Heq & Hf & Hu & Hn).
  rewrite app_nil_r in Heq. rewrite (Heq resp) by done. simpl.
  split; [done|].
  intros m Hm. destruct (in_dec string_dec m models) as [Hin|Hin].
  - apply Hu; [done|]. destruct (available now st m); [tauto|done].
  - by apply Hn.
Qed.

Lemma dispatch_all_fail_exhausted_witness :
  fst (openrouter_chat_sync 2 60 true 0 (fun _ => Http 503 EmptyString)
         scenario_models {[ "backend2" := {| fails := 2; skip_until := 50 |} ]}) =
    ErrExhausted 2.
Proof.
  destruct (dispatch_all_fail_exhausted 2 60 0 (fun _ => Http 503 EmptyString)
              scenario_models {[ "backend2" := {| fails := 2; skip_until := 50 |} ]})
    as [Hres _].
  - apply (bool_decide_unpack _). vm_compute. exact I.
  - repeat constructor.
  - rewrite Hres. reflexivity.
Defined.

(** A tracker in which no model was ever put in cooldown: every entry has
    skip_until 0 and a counter of at most 1. *)
Definition tracker_ok (st : gmap string model_state) : Prop :=
  forall m s, st !! m = Some s -> skip_until s = 0 /\ 0 <= fails s <= 1.

Lemma tracker_ok_insert_fresh h st :
  tracker_ok st -> tracker_ok (<[h := fresh_state]> st).
Proof.
  intros Hok m s. destruct (decide (m = h)) as [->|Hne].
  - rewrite lookup_insert_eq. intros [= <-]. simpl. lia.
  - rewrite lookup_insert_ne by congruence. apply Hok.
Qed.

Lemma tracker_ok_check now h st :
  tracker_ok st -> 0 <= now ->
  fst (is_model_available now h st) = true /\
  tracker_ok (snd (is_model_available now h st)) /\
  default fresh_state (snd (is_model_available now h st) !! h) = fresh_state.
Proof.
  intros Hok Hnow. unfold is_model_available.
  destruct (st !! h) as [s|] eqn:E.
  - destruct (Hok _ _ E) as [Hs _].
    replace (skip_until s <=? now) with true by (symmetry; apply Z.leb_le; lia).
    simpl. split; [done|split].
    + by apply tracker_ok_insert_fresh.
    + by rewrite lookup_insert_eq.
  - simpl. by rewrite E.
Qed.

Lemma tracker_ok_mark T D now h st :
  2 <= T -> tracker_ok st -> default fresh_state (st !! h) = fresh_state ->
  tracker_ok (mark_model_failed T D now h st).
Proof.
  intros HT Hok Hd. unfold mark_model_failed. rewrite Hd. simpl.
  replace (T <=? 0 + 1) with false by (symmetry; apply Z.leb_gt; lia).
  intros m s. destruct (decide (m = h)) as [->|Hne].
  - rewrite lookup_insert_eq. intros [= <-]. simpl. lia.
  - rewrite lookup_insert_ne by congruence. apply Hok.
Qed.

Lemma tracker_ok_loop T D now resp :
  2 <= T -> 0 <= now ->
  forall models tried st, tracker_ok st ->
  tracker_ok (snd (chat_loop T D now resp models tried st)).
Proof.
  intros HT Hnow models. induction models as [|h rest IH]; intros tried st Hok; [done|].
  destruct (tracker_ok_check now h st Hok Hnow) as (Ha & Hok1 & Hd).
  simpl. destruct (is_model_available now h st) as [av st1]. simpl in Ha, Hok1, Hd.
  subst av. cbn [negb].
  destruct (resp h) as [code content|]; [|apply IH; by apply tracker_ok_mark].
  destruct (_ && _).
  - simpl. case_match; [by apply tracker_ok_insert_fresh|done].
  - destruct (_ || _); [apply IH; by apply tracker_ok_mark|].
    destruct (_ || _); [done|apply IH; by apply tracker_ok_mark].
Qed.

(** Successive sequential dispatch runs, each at its own time and with its
    own backend answers, threading the module-level tracker. *)
Definition run_dispatches T D (key_set : bool) (models : list string)
    (runs : list (Z * (string -> post_outcome))) (st : gmap string model_state)
    : gmap string model_state :=
  fold_left (fun st r => snd (openrouter_chat_sync T D key_set (fst r) (snd r) models st))
    runs st.

Lemma tracker_ok_runs T D key models runs st :
  2 <= T -> Forall (fun r => 0 <= fst r) runs -> tracker_ok st ->
  tracker_ok (run_dispatches T D key models runs st).
Proof.
  intros HT Hruns. revert st. unfold run_dispatches.
  induction Hruns as [|r runs Hr Hruns IH]; intros st Hok; simpl; [done|].
  apply IH. unfold openrouter_chat_sync. destruct key; simpl; [|done].
  by apply tracker_ok_loop.
Qed.

(** With a failure threshold of 2 or more, no sequence of dispatch runs
    (at times >= 0, starting from the empty tracker) ever puts a model in
    cooldown: every model stays available at every time >= 0, and no
    counter exceeds 1, so the threshold is never reached. *)
Theorem no_cooldown_when_threshold_ge_2 T D key models
    (runs : list (Z * (string -> post_outcome))) :
  2 <= T -> Forall (fun r => 0 <= fst r) runs ->
  let st := run_dispatches T D key models runs ∅ in
  forall m t, 0 <= t -> available t st m = true /\ 0 <= fails_of st m <= 1.
Proof.
  intros HT Hruns st m t Ht.
  assert (Hok : tracker_ok st) by (apply tracker_ok_runs; [done|done|intros ??; done]).
  split.
  - apply (tracker_ok_check t m st Hok Ht).
  - unfold fails_of. destruct (st !! m) as [s|] eqn:E; simpl; [|lia].
    apply (Hok _ _ E).
Qed.

Lemma no_cooldown_when_threshold_ge_2_witness :
  let runs := [(0, fun _ => ConnError); (5, fun _ => Http 503 EmptyString);
               (9, fun _ => ConnError)] in
  available 10 (run_dispatches 2 60 true scenario_models runs ∅) "backend1" = true.
Proof.
  intros runs.
  apply (no_cooldown_when_threshold_ge_2 2 60 true scenario_models runs); [lia| |lia].
  repeat constructor; simpl; lia.
Defined.

(* ------------------------------------------------------------------ *)
(** ** The message handler and /clear *)

(** Without an API key the handler only tries to send the fixed
    missing-key reply: whatever the text (a flagged one included), no
    session is created, nothing is dispatched, and no typing action is
    sent; when that send is delivered the handler returns, and when it
    fails the exception leaves the handler with nothing sent. *)
Theorem handler_missing_key (uid : Z) (text : string) (rate_res reply_res : chat_result)
    (ss : gmap Z (list chat_message)) (outs : list bool) :
  let res := run_handler false uid text rate_res reply_res ss outs in
  chat_sessions (snd res) = ss /\
  (hd_error outs <> Some false ->
     fst res = Ret tt /\ log (snd res) = [EvReply missing_key_reply false]) /\
  (hd_error outs = Some false ->
     fst res = Raise /\ log (snd res) = []).
Proof.
  intros res. unfold res. run_handler_steps.
  destruct outs as [|[] rest]; simpl; (split; [done|]);
    split; intros Hh; try done; by destruct Hh.
Qed.

Lemma handler_success_run (uid : Z) (text : string) (ss : gmap Z (list chat_message))
    (rate_res : chat_result) (r : string) (rest : list bool) :
  is_crisis text = false ->
  let h := default [] (ss !! uid) in
  let user := {| msg_role := RoleUser; msg_content := text |} in
  run_handler true uid text rate_res (ChatOk r) ss (true :: true :: rest) =
    (Ret tt,
     {| chat_sessions :=
          <[uid := last_n 24 (h ++ [user; {| msg_role := RoleAssistant;
                                             msg_content := final_reply r |}])]> ss;
        sends := rest;
        log := [EvTyping; EvDispatch (stress_messages text) 3;
                EvDispatch ({| msg_role := RoleSystem; msg_content := SYSTEM_PROMPT |}
                              :: last_n 24 (h ++ [user])) 220;
                EvReply (final_reply r) (3 <=? get_stress_level rate_res)] |}).
Proof.
  intros Hc h user. run_handler_steps. rewrite Hc.
  cbn -[trim_history get_stress_level py_strip py_truthy last_n].
  unfold h, user, final_reply.
  destruct (ss !! uid) as [h0|] eqn:E;
    cbn -[trim_history get_stress_level py_strip py_truthy last_n];
    rewrite ?lookup_insert_eq, ?E;
    cbn -[trim_history get_stress_level py_strip py_truthy last_n];
    rewrite !trim_history_last_n, last_n_app, <-?List.app_assoc, !insert_insert_eq;
    reflexivity.
Qed.

(** The normal path of the handler (key set, text not flagged, reply
    dispatch returns [r], typing action and reply delivered): the model
    is sent the system prompt followed by the last 24 messages of the
    stored history with the new user message; the user's stored history
    becomes the last 24 messages of the old one followed by the user
    message and the stripped reply (or the default reply when blank);
    other users' histories are unchanged; the reply carries the button
    exactly when the rated level is at least 3. *)
Theorem handler_success_path (uid : Z) (text : string) (ss : gmap Z (list chat_message))
    (rate_res : chat_result) (r : string) (rest : list bool) :
  is_crisis text = false ->
  let h := default [] (ss !! uid) in
  let user := {| msg_role := RoleUser; msg_content := text |} in
  run_handler true uid text rate_res (ChatOk r) ss (true :: true :: rest) =
    (Ret tt,
     {| chat_sessions :=
          <[uid := last_n 24 (h ++ [user; {| msg_role := RoleAssistant;
                                             msg_content := final_reply r |}])]> ss;
        sends := rest;
        log := [EvTyping; EvDispatch (stress_messages text) 3;
                EvDispatch ({| msg_role := RoleSystem; msg_content := SYSTEM_PROMPT |}
                              :: last_n 24 (h ++ [user])) 220;
                EvReply (final_reply r) (3 <=? get_stress_level rate_res)] |}).
Proof. apply handler_success_run. Qed.

Lemma handler_success_path_witness :
  chat_sessions (snd (run_handler true 7 "hello" (ChatOk "4") (ChatOk " Hi there ")
                        ∅ [true; true])) !! 7 =
    Some [{| msg_role := RoleUser; msg_content := "hello" |};
          {| msg_role := RoleAssistant; msg_content := "Hi there" |}].
Proof.
  rewrite (handler_success_path 7 "hello" ∅ (ChatOk "4") " Hi there " []);
    [|reflexivity].
  reflexivity.
Defined.

(** When the typing action fails, the handler (key set) drops the
    user's session and sends the generic error message, for any text (a
    flagged one included) and before anything is dispatched; a failure of
    that second send leaves the handler. *)
Theorem handler_typing_failure (uid : Z) (text : string) (rate_res reply_res : chat_result)
    (ss : gmap Z (list chat_message)) (b : bool) (rest : list bool) :
  run_handler true uid text rate_res reply_res ss (false :: b :: rest) =
    (if b then Ret tt else Raise,
     {| chat_sessions := delete uid ss; sends := rest;
        log := if b then [EvReply error_reply false] else [] |}).
Proof.
  run_handler_steps.
  assert (Hd : delete uid (match ss !! uid with
                           | Some _ => ss
                           | None => <[uid := []]> ss
                           end) = delete uid ss).
  { destruct (ss !! uid); [done|apply delete_insert_eq]. }
  destruct b; cbn; by rewrite Hd.
Qed.

(** /clear removes the user's session whether or not its confirmation
    is delivered, and leaves every other session as it was. *)
Theorem clear_drops_session (uid : Z) (ss : gmap Z (list chat_message)) (outs : list bool) :
  let res := clear uid {| chat_sessions := ss; sends := outs; log := [] |} in
  chat_sessions (snd res) = delete uid ss /\
  chat_sessions (snd res) !! uid = None /\
  (forall u, u <> uid -> chat_sessions (snd res) !! u = ss !! u) /\
  log (snd res) = match outs with
                  | false :: _ => []
                  | _ => [EvReply clear_reply false]
                  end.
Proof.
  intros res. unfold res, clear, h_bind, set_sessions, deliver.
  destruct outs as [|[] ?]; cbn;
    (split; [done|split; [apply lookup_delete_eq|split; [|done]]]);
    intros u Hu; by apply lookup_delete_ne.
Qed.

(** After /clear, the user's next message (key set, not flagged, reply
    [r] dispatched, sends delivered) starts a new conversation: the model
    is sent only the system prompt and that message, and the stored
    history is that message and the reply. *)
Theorem clear_then_message (uid : Z) (text : string) (ss : gmap Z (list chat_message))
    (outs : list bool) (rate_res : chat_result) (r : string) (rest : list bool) :
  is_crisis text = false ->
  let s1 := snd (clear uid {| chat_sessions := ss; sends := outs; log := [] |}) in
  let res := run_handler true uid text rate_res (ChatOk r) (chat_sessions s1)
               (true :: true :: rest) in
  In (EvDispatch [{| msg_role := RoleSystem; msg_content := SYSTEM_PROMPT |};
                  {| msg_role := RoleUser; msg_content := text |}] 220) (log (snd res)) /\
  chat_sessions (snd res) !! uid =
    Some [{| msg_role := RoleUser; msg_content := text |};
          {| msg_role := RoleAssistant; msg_content := final_reply r |}].
Proof.
  intros Hc s1 res.
  assert (Hs1 : chat_sessions s1 = delete uid ss).
  { unfold s1, clear, h_bind, set_sessions, deliver. cbn. by destruct outs as [|[] ?]. }
  unfold res. rewrite Hs1, handler_success_run by done. cbn [snd log chat_sessions].
  rewrite lookup_delete_eq, lookup_insert_eq. cbn [default].
  split; [simpl; tauto|done].
Qed.

Lemma clear_then_message_witness :
  chat_sessions (snd (run_handler true 7 "hello" (ChatOk "1") (ChatOk "Hi")
     (chat_sessions (snd (clear 7 {| chat_sessions := {[7 := [{| msg_role := RoleUser;
                                                                msg_content := "old" |}]]};
                                     sends := []; log := [] |})))
     [true; true])) !! 7 =
  Some [{| msg_role := RoleUser; msg_content := "hello" |};
        {| msg_role := RoleAssistant; msg_content := final_reply "Hi" |}].
Proof.
  apply (clear_then_message 7 "hello" {[7 := [{| msg_role := RoleUser; msg_content := "old" |}]]}
           [] (ChatOk "1") "Hi" []).
  reflexivity.
Defined.

(* ------------------------------------------------------------------ *)
(** ** Request headers *)

(** The headers of every OpenRouter request: the bearer token (the text
    "Bearer None" when OPENROUTER_API_KEY is unset), the JSON content
    type, HTTP-Referer exactly when the site URL is non-empty, X-Title
    exactly when the app name is non-empty, and no other header. *)
Theorem openrouter_headers_spec (api_key : option string) (site_url app_name : string) :
  let hs := openrouter_headers api_key site_url app_name in
  hs !! "Authorization" = Some ("Bearer " ++ py_format_opt api_key) /\
  hs !! "Content-Type" = Some "application/json" /\
  hs !! "HTTP-Referer" = (if py_truthy site_url then Some site_url else None) /\
  hs !! "X-Title" = (if py_truthy app_name then Some app_name else None) /\
  (forall k, hs !! k <> None ->
     In k ["Authorization"; "Content-Type"; "HTTP-Referer"; "X-Title"]).
Proof.
  intros hs. unfold hs, openrouter_headers.
  destruct (py_truthy site_url), (py_truthy app_name);
    (split; [by vm_compute|split; [by vm_compute|split; [by vm_compute|split; [by vm_compute|]]]]);
    intros k Hk;
    (destruct (decide (k = "Authorization")) as [->|n1]; [simpl; tauto|]);
    (destruct (decide (k = "Content-Type")) as [->|n2]; [simpl; tauto|]);
    (destruct (decide (k = "HTTP-Referer")) as [->|n3]; [simpl; tauto|]);
    (destruct (decide (k = "X-Title")) as [->|n4]; [simpl; tauto|]);
    exfalso; apply Hk; rewrite ?lookup_insert_ne by congruence; apply lookup_empty.
Qed.

(* ------------------------------------------------------------------ *)
(** ** The model catalog: fetch_free_models *)

Lemma py_in_In (x : string) (l : list string) : py_in x l = true <-> In x l.
Proof.
  unfold py_in. rewrite existsb_exists. split.
  - intros (y & Hy & E). apply String.eqb_eq in E. by subst.
  - intros Hx. exists x. split; [done|apply String.eqb_refl].
Qed.

Lemma py_remove_sub (x y : string) (l : list string) : In x (py_remove y l) -> In x l.
Proof.
  induction l as [|z l IH]; simpl; [done|].
  destruct (String.eqb y z); simpl; [tauto|]. intros [->|H]; [by left|right; by apply IH].
Qed.

Lemma py_remove_keep (x y : string) (l : list string) :
  In x l -> x <> y -> In x (py_remove y l).
Proof.
  induction l as [|z l IH]; simpl; [done|].
  intros [<-|Hx] Hne; destruct (String.eqb_spec y z) as [->|Hyz]; simpl.
  - congruence.
  - by left.
  - done.
  - right. by apply IH.
Qed.

Lemma collect_free_some (data : list listing_entry) :
  (forall e, In e data -> is_free e = true -> e_id e <> None) ->
  exists l, collect_free data = Some l /\
    forall x, In x l <-> exists e, In e data /\ is_free e = true /\ e_id e = Some x.
Proof.
  induction data as [|m rest IH]; intros Hid.
  - exists []. split; [done|]. intros x. split; [done|]. by intros (e & [] & _).
  - destruct IH as (l & El & Hl).
    { intros e He. apply Hid. by right. }
    simpl. destruct (is_free m) eqn:Ef.
    + destruct (e_id m) as [i|] eqn:Ei;
        [|exfalso; exact (Hid m (or_introl eq_refl) Ef Ei)].
      rewrite El. exists (i :: l). split; [done|]. intros x. simpl. rewrite Hl. split.
      * intros [<-|(e & He & Hf & Hx)]; [exists m; auto|exists e; auto].
      * intros (e & [<-|He] & Hf & Hx); [left; congruence|right; exists e; auto].
    + exists l. split; [done|]. intros x. rewrite Hl. split.
      * intros (e & He & Hf & Hx). exists e. auto.
      * intros (e & [<-|He] & Hf & Hx); [congruence|exists e; auto].
Qed.

Lemma collect_free_none (data : list listing_entry) :
  (exists e, In e data /\ is_free e = true /\ e_id e = None) -> collect_free data = None.
Proof.
  induction data as [|m rest IH]; intros (e & He & Hf & Hi); [done|].
  simpl. destruct He as [<-|He].
  - by rewrite Hf, Hi.
  - rewrite IH by eauto. by destruct (is_free m), (e_id m).
Qed.

(** For a 200 listing in which every free entry has an id, the catalog
    starts with openrouter/free, and a name is in it exactly when it is
    openrouter/free or the id of an entry whose prompt and completion
    prices are both "0". *)
Theorem fetch_free_models_listing (data : list listing_entry) :
  (forall e, In e data -> is_free e = true -> e_id e <> None) ->
  let ms := fetch_free_models (ListStatus 200 (Some data)) in
  hd_error ms = Some default_model /\
  (forall x, In x ms <->
     x = default_model \/ exists e, In e data /\ is_free e = true /\ e_id e = Some x).
Proof.
  intros Hid ms. destruct (collect_free_some data Hid) as (l & El & Hl).
  unfold ms, fetch_free_models. rewrite Z.eqb_refl, El.
  destruct (py_in default_model l) eqn:Ein; simpl; (split; [done|]); intros x; rewrite <- Hl.
  - apply py_in_In in Ein. split.
    + intros [<-|Hx]; [by left|right; by apply (py_remove_sub x default_model)].
    + intros [->|Hx]; [by left|].
      destruct (string_dec x default_model) as [->|Hne]; [by left|].
      right. by apply py_remove_keep.
  - split; intros [Hx|Hx]; auto.
Qed.

Lemma fetch_free_models_listing_witness :
  In "a:free" (fetch_free_models
    (ListStatus 200 (Some [{| e_id := Some "a:free"; e_prompt := Some "0";
                              e_completion := Some "0" |};
                           {| e_id := None; e_prompt := Some "1";
                              e_completion := Some "0" |}]))).
Proof.
  apply (fetch_free_models_listing
    [{| e_id := Some "a:free"; e_prompt := Some "0"; e_completion := Some "0" |};
     {| e_id := None; e_prompt := Some "1"; e_completion := Some "0" |}]).
  - intros e [<-|[<-|[]]]; simpl; [discriminate|discriminate].
  - right. eexists. split; [left; reflexivity|]. split; reflexivity.
Defined.

(** The catalog falls back to the three hard-coded models when the
    request raises, when the status is not 200, when the body cannot be
    read, and when a free entry has no "id" (the KeyError is caught). *)
Theorem fetch_free_models_fallback (r : listing_response) :
  (r = ListTransportError \/
   (exists code d, r = ListStatus code d /\ code <> 200) \/
   r = ListStatus 200 None \/
   (exists data e, r = ListStatus 200 (Some data) /\
                   In e data /\ is_free e = true /\ e_id e = None)) ->
  fetch_free_models r = fallback_models.
Proof.
  intros [->|[(c & d & -> & Hc)|[->|(data & e & -> & He & Hf & Hi)]]]; simpl; [done| |done|].
  - destruct d; [|done]. by rewrite (proj2 (Z.eqb_neq _ _) Hc).
  - rewrite collect_free_none; [done|eauto].
Qed.

Lemma fetch_free_models_fallback_witness :
  fetch_free_models (ListStatus 200 (Some [{| e_id := Some "a:free"; e_prompt := Some "0";
                                            e_completion := Some "0" |};
                                          {| e_id := None; e_prompt := Some "0";
                                            e_completion := Some "0" |}])) =
    fallback_models.
Proof.
  apply fetch_free_models_fallback. right. right. right.
  eexists. exists {| e_id := None; e_prompt := Some "0"; e_completion := Some "0" |}.
  split; [reflexivity|]. split; [right; left; reflexivity|]. split; reflexivity.
Defined.

(* ------------------------------------------------------------------ *)
(** ** Crisis detection *)

Lemma py_lower_char_idem (c : ascii) : py_lower_char (py_lower_char c) = py_lower_char c.
Proof. destruct c as [[] [] [] [] [] [] [] []]; reflexivity. Qed.

Lemma py_lower_idem (s : string) : py_lower (py_lower s) = py_lower s.
Proof. induction s as [|c s IH]; simpl; [done|]. by rewrite py_lower_char_idem, IH. Qed.

Lemma py_lower_app (s t : string) : py_lower (s ++ t) = (py_lower s ++ py_lower t)%string.
Proof. induction s as [|c s IH]; simpl; [done|]. by rewrite IH. Qed.

Lemma prefix_app (kw s t : string) :
  String.prefix kw s = true -> String.prefix kw (s ++ t) = true.
Proof.
  revert s. induction kw as [|a kw IH]; intros s Hp; [by destruct (s ++ t)%string|].
  destruct s as [|b s]; simpl in *; [discriminate|].
  destruct (ascii_dec a b); [by apply IH|discriminate].
Qed.

Lemma py_contains_app_r (kw s t : string) :
  py_contains kw s = true -> py_contains kw (s ++ t) = true.
Proof.
  induction s as [|c s IH]; intros Hc.
  - simpl in Hc. apply orb_true_iff in Hc as [Hc|Hc]; [|discriminate].
    destruct kw; [|discriminate]. by destruct t.
  - simpl in Hc |- *. apply orb_true_iff in Hc as [Hc|Hc].
    + apply orb_true_iff. left. by apply (prefix_app kw (String c s)).
    + apply orb_true_iff. right. by apply IH.
Qed.

Lemma py_contains_app_l (kw s t : string) :
  py_contains kw t = true -> py_contains kw (s ++ t) = true.
Proof.
  induction s as [|c s IH]; intros Hc; [done|].
  simpl. apply orb_true_iff. right. by apply IH.
Qed.

(** is_crisis ignores letter case: lower-casing the text first does not
    change the answer; and a flagged text stays flagged whatever is
    written before or after it. *)
Theorem is_crisis_case_and_context (t s u : string) :
  is_crisis (py_lower t) = is_crisis t /\
  (is_crisis t = true -> is_crisis (s ++ t ++ u) = true).
Proof.
  split.
  - unfold is_crisis. by rewrite py_lower_idem.
  - unfold is_crisis. rewrite !existsb_exists. intros (kw & Hkw & Hc).
    exists kw. split; [done|].
    rewrite !py_lower_app. apply py_contains_app_l, py_contains_app_r, Hc.
Qed.

(* ------------------------------------------------------------------ *)
(** ** _trim_history *)

(** _trim_history returns a suffix of its input of at most 24 messages:
    the input itself when it has at most 24, exactly 24 otherwise; and
    trimming twice is trimming once. *)
Theorem trim_history_suffix (h : list chat_message) :
  (exists p, h = (p ++ trim_history h)%list) /\
  (length (trim_history h) <= 24)%nat /\
  ((length h <= 24)%nat -> trim_history h = h) /\
  ((24 <= length h)%nat -> length (trim_history h) = 24%nat) /\
  trim_history (trim_history h) = trim_history h.
Proof.
  rewrite !trim_history_last_n. split; [|split; [|split; [|split]]].
  - exists (take (length h - 24) h). unfold last_n. symmetry. apply take_drop.
  - apply last_n_length.
  - apply last_n_short.
  - intros Hl. unfold last_n. rewrite length_drop. lia.
  - apply last_n_short, last_n_length.
Qed.
